(** * The identify-face handler of server.py

    A shallow embedding of [handle_identify_face] (server.py, lines 57-92)
    together with the two trivial lifecycle handlers [connect] and
    [disconnect] (lines 49-55), and of the cooperative event loop that runs
    them.

    Python [str] values are modelled as [string], read as the UTF-8 encoding
    of the text: the only characters the handler inspects are the comma
    (an ASCII byte that never occurs inside a multi-byte UTF-8 sequence) and
    the base64 alphabet, and a string has a non-ASCII character exactly when
    its encoding has a byte above 127. *)

From Stdlib Require Import List Bool.
From Stdlib.Strings Require Import String Ascii Byte.
From Stdlib Require Import ZArith NArith QArith Lia.
Import ListNotations.

Local Close Scope Q_scope.
Local Open Scope string_scope.
Local Open Scope list_scope.

(** ** Python values and exceptions *)

(** A Python [bytes] object. *)
Definition bytes := list byte.

(** The exceptions the calls inside the [try] block can raise.  All three
    classes derive from Python's [Exception]: [binascii.Error] is a subclass
    of [ValueError], and [cv2.error] a direct subclass of [Exception]. *)
Inductive exn : Type :=
| ValueError      (* str.encode('ascii') failed inside b64decode *)
| BinasciiError   (* binascii.Error: bad length or padding *)
| CvError.        (* cv2.error *)

(** The outcome of a call that either returns or raises. *)
Inductive result (A : Type) : Type :=
| Ok (a : A)
| Err (e : exn).
Arguments Ok {A} a.
Arguments Err {A} e.

(** ** [str] operations used on lines 69-72 *)

Definition comma : ascii := ","%char.

(** [',' in s] *)
Fixpoint contains_comma (s : string) : bool :=
  match s with
  | EmptyString => false
  | String c s' => if Ascii.eqb c comma then true else contains_comma s'
  end.

(** [s.split(',', 1)]: at most one split, at the first comma.  The result
    list has two elements when [s] has a comma and one otherwise. *)
Fixpoint split_comma_1 (s : string) : list string :=
  match s with
  | EmptyString => [EmptyString]
  | String c s' =>
      if Ascii.eqb c comma then [EmptyString; s']
      else match split_comma_1 s' with
           | h :: t => String c h :: t
           | [] => [String c EmptyString]
           end
  end.

(** ** [base64.b64decode(s)] with its default [validate=False]

    The standard library's function: a [str] argument is first encoded as
    ASCII ([ValueError] when it has a non-ASCII character), then handed to
    [binascii.a2b_base64] in its lenient mode, which skips every character
    outside the alphabet, stops at a completed pad sequence, and raises
    [binascii.Error] when the data characters do not fill whole quads. *)

(** [table_a2b_base64]: the 6-bit value of an alphabet character. *)
Definition b64_value (c : ascii) : option N :=
  let n := N_of_ascii c in
  if ((65 <=? n) && (n <=? 90))%N then Some (n - 65)%N          (* A-Z *)
  else if ((97 <=? n) && (n <=? 122))%N then Some (n - 71)%N    (* a-z *)
  else if ((48 <=? n) && (n <=? 57))%N then Some (n + 4)%N      (* 0-9 *)
  else if (n =? 43)%N then Some 62%N                            (* + *)
  else if (n =? 47)%N then Some 63%N                            (* / *)
  else None.

Definition BASE64_PAD : ascii := "="%char.

Definition byte_of_N8 (n : N) : byte := byte_of_ascii (ascii_of_N n).

(** The decoding loop of [a2b_base64].  [quad_pos] is the position inside
    the current group of four data characters, [leftchar] the bits carried
    over from the previous character, [pads] the number of pad characters
    seen since the last data character. *)
Fixpoint a2b_base64_loop (s : string) (quad_pos leftchar pads : N)
  : result bytes :=
  match s with
  | EmptyString =>
      if (quad_pos =? 0)%N then Ok [] else Err BinasciiError
  | String c s' =>
      if Ascii.eqb c BASE64_PAD then
        if (2 <=? quad_pos)%N then
          if (4 <=? quad_pos + (pads + 1))%N then Ok []
          else a2b_base64_loop s' quad_pos leftchar (pads + 1)
        else a2b_base64_loop s' quad_pos leftchar pads
      else
        match b64_value c with
        | None => a2b_base64_loop s' quad_pos leftchar pads
        | Some this_ch =>
            let emit (b : N) (r : result bytes) :=
              match r with
              | Ok out => Ok (byte_of_N8 b :: out)
              | Err e => Err e
              end in
            if (quad_pos =? 0)%N then
              a2b_base64_loop s' 1 this_ch 0
            else if (quad_pos =? 1)%N then
              emit (N.lor (N.shiftl leftchar 2) (N.shiftr this_ch 4))
                   (a2b_base64_loop s' 2 (N.land this_ch 15) 0)
            else if (quad_pos =? 2)%N then
              emit (N.lor (N.shiftl leftchar 4) (N.shiftr this_ch 2))
                   (a2b_base64_loop s' 3 (N.land this_ch 3) 0)
            else
              emit (N.lor (N.shiftl leftchar 6) this_ch)
                   (a2b_base64_loop s' 0 0 0)
        end
  end.

Definition a2b_base64 (s : string) : result bytes := a2b_base64_loop s 0 0 0.

(** [s.encode('ascii')] succeeds exactly when every character is ASCII. *)
Fixpoint is_ascii_str (s : string) : bool :=
  match s with
  | EmptyString => true
  | String c s' => (N_of_ascii c <? 128)%N && is_ascii_str s'
  end.

Definition b64decode (s : string) : result bytes :=
  if is_ascii_str s then a2b_base64 s else Err ValueError.

(** ** Images

    [cv2.imdecode] returns an [ndarray] of shape (rows, cols, 3) for
    [IMREAD_COLOR], or [None] when the buffer holds no image it can read. *)
Record bitmap : Type := mk_bitmap {
  rows : nat;
  cols : nat;
  pixels : bytes
}.

Definition IMREAD_COLOR : Z := 1.

(** [np.frombuffer(img_data, np.uint8)]: the same bytes, viewed as a
    one-dimensional array of unsigned 8-bit integers. *)
Definition frombuffer_uint8 (img_data : bytes) : bytes := img_data.

(** ** What the handler does to the outside world *)

(** Socket.IO session identifiers are strings. *)
Definition sid := string.

(** The dictionary built on line 84. *)
Record user : Type := mk_user {
  id : string;
  name : string
}.

(** A call [sio.emit(event, data, to=sid)]; [data] is [None] when the call
    passes no payload (line 92). *)
Record emission : Type := mk_emission {
  event : string;
  data : option user;
  to : sid
}.

(** The lines the handlers print, kept structured rather than formatted. *)
Inductive log_line : Type :=
| LogConnected (s : sid)                 (* line 51 *)
| LogDisconnected (s : sid)              (* line 55 *)
| LogReceived (s : sid) (size : nat)     (* line 64 *)
| LogDecodeFailed (s : sid)              (* line 79 *)
| LogSent (s : sid) (who : string)       (* line 88 *)
| LogError (e : exn).                    (* line 91 *)

(** ** Coroutines

    The body of an [async def]: a finite tree of effects.  [Sleep] is the
    one point where the coroutine hands control back to the event loop
    ([await asyncio.sleep]); [Emit] and [Log] act at once. *)
Inductive coro (A : Type) : Type :=
| Ret (a : A)
| Raise (e : exn)
| Log (l : log_line) (k : coro A)
| Sleep (seconds : Q) (k : coro A)
| Emit (m : emission) (k : coro A).
Arguments Ret {A} a.
Arguments Raise {A} e.
Arguments Log {A} l k.
Arguments Sleep {A} seconds k.
Arguments Emit {A} m k.

Fixpoint bind {A B : Type} (c : coro A) (f : A -> coro B) : coro B :=
  match c with
  | Ret a => f a
  | Raise e => Raise e
  | Log l k => Log l (bind k f)
  | Sleep d k => Sleep d (bind k f)
  | Emit m k => Emit m (bind k f)
  end.

(** A call into library code that returns or raises. *)
Definition call {A : Type} (r : result A) : coro A :=
  match r with
  | Ok a => Ret a
  | Err e => Raise e
  end.

(** [try: body except Exception as e: handler(e)].  Every constructor of
    [exn] is an [Exception], so the clause catches whatever [body] raises,
    before or after a suspension. *)
Fixpoint try_except {A : Type} (body : coro A) (handler : exn -> coro A)
  : coro A :=
  match body with
  | Ret a => Ret a
  | Raise e => handler e
  | Log l k => Log l (try_except k handler)
  | Sleep d k => Sleep d (try_except k handler)
  | Emit m k => Emit m (try_except k handler)
  end.

Declare Scope coro_scope.
Delimit Scope coro_scope with coro.
Notation "x <- c ;; k" := (bind c (fun x => k))
  (at level 61, c at next level, right associativity) : coro_scope.
Notation "c ;;; k" := (bind c (fun _ => k))
  (at level 61, right associativity) : coro_scope.

Definition print (l : log_line) : coro unit := Log l (Ret tt).
Definition asyncio_sleep (seconds : Q) : coro unit := Sleep seconds (Ret tt).
Definition sio_emit (ev : string) (d : option user) (s : sid) : coro unit :=
  Emit (mk_emission ev d s) (Ret tt).

(** Unpacking a list into exactly two names, as [header, base64_data = ...]
    does; any other length is a [ValueError]. *)
Definition unpack2 {A : Type} (l : list A) : result (A * A) :=
  match l with
  | [a; b] => Ok (a, b)
  | _ => Err ValueError
  end.

(** ** The handlers *)

Section Handlers.

(** [cv2.imdecode(buf, flags)]: returns an image, returns [None], or
    raises [cv2.error].  The codec itself is outside the repository. *)
Variable imdecode : bytes -> Z -> result (option bitmap).

(** Lines 69-72: the text handed to [b64decode]. *)
Definition select_base64_data (base64_image : string) : result string :=
  if contains_comma base64_image then
    match unpack2 (split_comma_1 base64_image) with
    | Ok (header, base64_data) => Ok base64_data
    | Err e => Err e
    end
  else Ok base64_image.

(** Lines 74-76: from the selected text to the image, or [None]. *)
Definition decode_data (base64_data : string) : result (option bitmap) :=
  match b64decode base64_data with
  | Ok img_data =>
      let nparr := frombuffer_uint8 img_data in
      imdecode nparr IMREAD_COLOR
  | Err e => Err e
  end.

(** Lines 74-88: the [try] block from the [b64decode] call on. *)
Definition identify_data (s : sid) (base64_data : string) : coro unit :=
  (img <- call (decode_data base64_data) ;;
   match img with
   | None =>
       print (LogDecodeFailed s) ;;;
       Ret tt
   | Some _ =>
       asyncio_sleep 0.5%Q ;;;
       let user := mk_user "p123" "김철수" in
       sio_emit "auth-success" (Some user) s ;;;
       print (LogSent s (name user))
   end)%coro.

(** Lines 67-88: the whole [try] block. *)
Definition identify_body (s : sid) (base64_image : string) : coro unit :=
  (base64_data <- call (select_base64_data base64_image) ;;
   identify_data s base64_data)%coro.

(** Lines 90-92: the [except] clause. *)
Definition identify_except (s : sid) (e : exn) : coro unit :=
  (print (LogError e) ;;;
   sio_emit "auth-fail" None s)%coro.

(** Lines 57-92.  The size printed on line 64 is the length of the text
    as this model holds it: the number of characters for ASCII text, the
    number of bytes of the encoding otherwise.  It reaches the console
    only. *)
Definition handle_identify_face (s : sid) (base64_image : string)
  : coro unit :=
  (print (LogReceived s (String.length base64_image)) ;;;
   try_except (identify_body s base64_image) (identify_except s))%coro.

(** Lines 49-51. *)
Definition connect (s : sid) : coro unit := print (LogConnected s).

(** Lines 53-55. *)
Definition disconnect (s : sid) : coro unit := print (LogDisconnected s).

(** Lines 69-76 as one pure function: what the inbound text decodes to. *)
Definition decode_image (base64_image : string) : result (option bitmap) :=
  match select_base64_data base64_image with
  | Ok base64_data => decode_data base64_data
  | Err e => Err e
  end.

End Handlers.

(** ** Observing a coroutine *)

(** Every [sio.emit] call the coroutine makes, in order, when each of its
    sleeps is allowed to elapse. *)
Fixpoint emissions {A : Type} (c : coro A) : list emission :=
  match c with
  | Ret _ | Raise _ => []
  | Log _ k | Sleep _ k => emissions k
  | Emit m k => m :: emissions k
  end.

(** The exception that escapes the coroutine, if one does. *)
Fixpoint uncaught {A : Type} (c : coro A) : option exn :=
  match c with
  | Ret _ => None
  | Raise e => Some e
  | Log _ k | Sleep _ k | Emit _ k => uncaught k
  end.

(** The lines it prints. *)
Fixpoint printed {A : Type} (c : coro A) : list log_line :=
  match c with
  | Ret _ | Raise _ => []
  | Log l k => l :: printed k
  | Sleep _ k | Emit _ k => printed k
  end.

(** How a run of the coroutine between two suspension points ends. *)
Inductive status : Type :=
| Finished
| Crashed (e : exn)
| Suspended (seconds : Q) (k : coro unit).

Record segment : Type := mk_segment {
  seg_emitted : list emission;
  seg_printed : list log_line;
  seg_status : status
}.

(** Run up to the next [await asyncio.sleep], the return, or an uncaught
    exception.  The awaits on [sio.emit] (lines 87 and 92) are taken to
    complete without handing control to another handler: a segment records
    the call, not its delivery. *)
Fixpoint run_segment (c : coro unit) : segment :=
  match c with
  | Ret _ => mk_segment [] [] Finished
  | Raise e => mk_segment [] [] (Crashed e)
  | Sleep d k => mk_segment [] [] (Suspended d k)
  | Log l k =>
      let r := run_segment k in
      mk_segment (seg_emitted r) (l :: seg_printed r) (seg_status r)
  | Emit m k =>
      let r := run_segment k in
      mk_segment (m :: seg_emitted r) (seg_printed r) (seg_status r)
  end.

(** ** The event loop

    One thread runs every handler.  A handler started by an inbound event
    runs until it suspends; a suspended handler is kept, with the session
    it serves, until its timer fires.  The application keeps no session
    table of its own: [connect] and [disconnect] only print. *)
Record server : Type := mk_server {
  tasks : list (sid * coro unit);   (* handlers asleep on line 83 *)
  outbox : list emission;           (* calls to sio.emit so far *)
  console : list log_line;
  faults : list exn                 (* exceptions that escaped a handler *)
}.

Definition init : server := mk_server [] [] [] [].

Inductive input : Type :=
| Connected (s : sid)
| Disconnected (s : sid)
| IdentifyFace (s : sid) (base64_image : string)
| TimerFired (n : nat).    (* the sleep of the n-th suspended handler ends *)

Fixpoint remove_nth {A : Type} (n : nat) (l : list A) : list A :=
  match n, l with
  | _, [] => []
  | O, _ :: t => t
  | S n', a :: t => a :: remove_nth n' t
  end.

(** Run the handler [c] of session [s] for one segment on [srv]. *)
Definition run_task (srv : server) (s : sid) (c : coro unit) : server :=
  let r := run_segment c in
  mk_server
    (match seg_status r with
     | Suspended _ k => tasks srv ++ [(s, k)]
     | _ => tasks srv
     end)
    (outbox srv ++ seg_emitted r)
    (console srv ++ seg_printed r)
    (match seg_status r with
     | Crashed e => faults srv ++ [e]
     | _ => faults srv
     end).

Section EventLoop.

Variable imdecode : bytes -> Z -> result (option bitmap).

Definition step (srv : server) (i : input) : server :=
  match i with
  | Connected s => run_task srv s (connect s)
  | Disconnected s => run_task srv s (disconnect s)
  | IdentifyFace s base64_image =>
      run_task srv s (handle_identify_face imdecode s base64_image)
  | TimerFired n =>
      match nth_error (tasks srv) n with
      | Some (s, k) =>
          run_task
            (mk_server (remove_nth n (tasks srv)) (outbox srv)
                       (console srv) (faults srv))
            s k
      | None => srv
      end
  end.

Definition run (srv : server) (inputs : list input) : server :=
  fold_left step inputs srv.

End EventLoop.

(** The number of recognition calls of session [s] still outstanding. *)
Definition outstanding (srv : server) (s : sid) : nat :=
  List.length (filter (fun t => String.eqb (fst t) s) (tasks srv)).

(** The two outbound messages. *)
Definition the_user : user := mk_user "p123" "김철수".
Definition auth_success (s : sid) : emission :=
  mk_emission "auth-success" (Some the_user) s.
Definition auth_fail (s : sid) : emission :=
  mk_emission "auth-fail" None s.

(** A stand-in codec for running the handlers on concrete payloads: a
    buffer that opens with the JPEG start-of-image marker FF D8 FF is read
    as a one-pixel image, any other buffer as no image.  It is not
    OpenCV's decoder, and the sample payloads below are openings of files,
    not whole images: it only shows that the hypotheses of the theorems
    can be met.  Every theorem is stated for an arbitrary decoder. *)
Definition marker_codec (buf : bytes) (flags : Z) : result (option bitmap) :=
  match buf with
  | "255"%byte :: "216"%byte :: "255"%byte :: _ =>
      Ok (Some (mk_bitmap 1 1 ["000"%byte; "000"%byte; "000"%byte]))
  | _ => Ok None
  end.

Definition jpeg_payload : string :=
  "data:image/jpeg;base64,/9j/4AAQSkZJRgABAQAAAQABAAA=".

(** The handler once its sleep has elapsed: lines 84-88 inside the [try]. *)
Definition after_sleep (s : sid) : coro unit :=
  Emit (auth_success s) (Log (LogSent s (name the_user)) (Ret tt)).

(** The three ways the [try] statement can go, by what the payload decodes
    to. *)
Definition outcome_of (s : sid) (r : result (option bitmap)) : coro unit :=
  match r with
  | Ok (Some _) => Sleep 0.5%Q (after_sleep s)
  | Ok None => Log (LogDecodeFailed s) (Ret tt)
  | Err e => Log (LogError e) (Emit (auth_fail s) (Ret tt))
  end.

(** What holds of every server the event loop can reach: each sleeping
    handler is past line 83 of a successful decode, and no exception has
    escaped. *)
Definition well_formed (srv : server) : Prop :=
  Forall (fun t => snd t = after_sleep (fst t)) (tasks srv)
  /\ faults srv = [].

(** The events addressed to session [s] so far. *)
Definition sent_to (s : sid) (srv : server) : list emission :=
  filter (fun m => String.eqb (to m) s) (outbox srv).

(** ** Three policies of the protocol description, stated on the event loop *)

(** A payload whose base64 text does not decode is dropped without any
    outbound event. *)
Definition silent_on_bad_encoding
    (imdecode : bytes -> Z -> result (option bitmap)) : Prop :=
  forall (s : sid) (raw d : string) (e : exn),
    select_base64_data raw = Ok d ->
    b64decode d = Err e ->
    emissions (handle_identify_face imdecode s raw) = [].

(** An event that arrives while the session has a recognition call
    outstanding is answered at once with [auth-fail] and starts no further
    call. *)
Definition rejects_when_busy
    (imdecode : bytes -> Z -> result (option bitmap)) : Prop :=
  forall (inputs : list input) (s : sid) (raw : string),
    let srv := run imdecode init inputs in
    let srv' := step imdecode srv (IdentifyFace s raw) in
    1 <= outstanding srv s ->
    outbox srv' = outbox srv ++ [auth_fail s]
    /\ outstanding srv' s <= 1.

(** Once a session with an outstanding call has disconnected, nothing more
    is emitted to it, whichever timers fire. *)
Definition discards_after_disconnect
    (imdecode : bytes -> Z -> result (option bitmap)) : Prop :=
  forall (inputs : list input) (s : sid) (timers : list nat),
    let srv := step imdecode (run imdecode init inputs) (Disconnected s) in
    1 <= outstanding srv s ->
    sent_to s (run imdecode srv (map TimerFired timers)) = sent_to s srv.

(** A payload that decodes to bytes which are no image is dropped without
    any outbound event.  The bytes are no image when the decoder does not
    return one: it returns [None] or it raises. *)
Definition silent_on_non_image
    (imdecode : bytes -> Z -> result (option bitmap)) : Prop :=
  forall (s : sid) (raw d : string) (img_data : bytes),
    select_base64_data raw = Ok d ->
    b64decode d = Ok img_data ->
    (forall img : bitmap,
        imdecode (frombuffer_uint8 img_data) IMREAD_COLOR <> Ok (Some img)) ->
    emissions (handle_identify_face imdecode s raw) = [].

(** The empty payload is handled without fault and without any event. *)
Definition empty_payload_silent
    (imdecode : bytes -> Z -> result (option bitmap)) : Prop :=
  forall s : sid,
    uncaught (handle_identify_face imdecode s "") = None
    /\ emissions (handle_identify_face imdecode s "") = [].

(** ** The awaits of a coroutine

    What the coroutine awaits, in order: [asyncio.sleep] and [sio.emit].
    The list does not say which of them hand control back to the event
    loop. *)
Inductive awaited : Type :=
| AwaitSleep (seconds : Q)
| AwaitEmit (m : emission).

Fixpoint awaits {A : Type} (c : coro A) : list awaited :=
  match c with
  | Ret _ | Raise _ => []
  | Log _ k => awaits k
  | Sleep d k => AwaitSleep d :: awaits k
  | Emit m k => AwaitEmit m :: awaits k
  end.

(** A session identifier and a malformed payload for the examples. *)
Definition sid1 : sid := "Jx0aTq3fWm".
Definition bad_payload : string := "not-valid-base64!!".

(** A second JPEG opening, FF D8 FF DB 00 43, sent without a header. *)
Definition bare_jpeg_payload : string := "/9j/2wBD".

(** A payload whose base64 text decodes to the three bytes [ABC], which
    are no image. *)
Definition text_payload : string := "QUJD".

(** ** Vocabulary for the properties of the decoding step *)

(** The number of characters of the base64 alphabet in a text. *)
Fixpoint count_alphabet (s : string) : nat :=
  match s with
  | EmptyString => 0
  | String c s' =>
      match b64_value c with
      | Some _ => S (count_alphabet s')
      | None => count_alphabet s'
      end
  end.

(** Does the text contain the pad character? *)
Fixpoint has_pad (s : string) : bool :=
  match s with
  | EmptyString => false
  | String c s' => Ascii.eqb c BASE64_PAD || has_pad s'
  end.

(** An ASCII character that is neither in the alphabet nor the pad, such
    as a space, a line break or a comma. *)
Definition foreign (c : ascii) : bool :=
  (N_of_ascii c <? 128)%N
  && negb (Ascii.eqb c BASE64_PAD)
  && match b64_value c with Some _ => false | None => true end.

(** ** Vocabulary for the properties of the event loop *)

(** The number of calls [sio.emit(ev, ..., to=s)] made so far. *)
Definition count_sent (ev : string) (s : sid) (srv : server) : nat :=
  List.length
    (filter (fun m => String.eqb (event m) ev && String.eqb (to m) s)
            (outbox srv)).

(** Is [i] an identify-face event of session [s] whose payload decodes to
    an image?  One on which a decoding call raises? *)
Definition asks_with_image
    (imdecode : bytes -> Z -> result (option bitmap))
    (s : sid) (i : input) : bool :=
  match i with
  | IdentifyFace s' raw =>
      String.eqb s' s
      && match decode_image imdecode raw with
         | Ok (Some _) => true
         | _ => false
         end
  | _ => false
  end.

Definition asks_with_error
    (imdecode : bytes -> Z -> result (option bitmap))
    (s : sid) (i : input) : bool :=
  match i with
  | IdentifyFace s' raw =>
      String.eqb s' s
      && match decode_image imdecode raw with
         | Err _ => true
         | _ => false
         end
  | _ => false
  end.

(** Arithmetic over list lengths: name every length, decide every test,
    and leave the rest to [lia]. *)
Ltac name_lengths :=
  repeat match goal with
         | |- context [@List.length ?A ?l] =>
             let n := fresh "n" in
             set (n := @List.length A l) in *; clearbody n
         end.
Ltac count_lia :=
  unfold sid in *;
  rewrite ?andb_true_r, ?andb_false_r;
  repeat match goal with
         | |- context [if String.eqb ?a ?b then _ else _] =>
             destruct (String.eqb a b)
         end;
  name_lengths; simpl; lia.

(** * Properties *)

(** ** The delimiter *)

Lemma split_comma_1_spec (s : string) :
  contains_comma s = true ->
  exists header rest,
    split_comma_1 s = [header; rest]
    /\ s = (header ++ String comma rest)%string
    /\ contains_comma header = false.
Proof.
  induction s as [|c s IH]; simpl; [discriminate|].
  destruct (Ascii.eqb c comma) eqn:Hc.
  - intros _. apply Ascii.eqb_eq in Hc. subst c.
    exists "", s. repeat split.
  - intros H. destruct (IH H) as (h & r & Hs & He & Hh).
    rewrite Hs. exists (String c h), r. simpl.
    rewrite Hc, <- He. repeat split. exact Hh.
Qed.

Lemma select_base64_data_comma (s : string) :
  contains_comma s = true ->
  exists header rest,
    s = (header ++ String comma rest)%string
    /\ contains_comma header = false
    /\ select_base64_data s = Ok rest.
Proof.
  intros H. destruct (split_comma_1_spec s H) as (h & r & Hs & He & Hh).
  exists h, r. unfold select_base64_data. rewrite H, Hs. simpl. auto.
Qed.

Lemma select_base64_data_plain (s : string) :
  contains_comma s = false -> select_base64_data s = Ok s.
Proof. intros H. unfold select_base64_data. now rewrite H. Qed.

(** The unpacking on line 70 cannot fail: the selection always returns. *)
Lemma select_base64_data_total (s : string) :
  exists d, select_base64_data s = Ok d.
Proof.
  destruct (contains_comma s) eqn:H.
  - destruct (select_base64_data_comma s H) as (h & r & _ & _ & E). eauto.
  - exists s. now apply select_base64_data_plain.
Qed.

(** ** The shape of the handler *)

Section Shape.

Variable imdecode : bytes -> Z -> result (option bitmap).

Lemma handle_identify_face_shape (s : sid) (raw : string) :
  handle_identify_face imdecode s raw
  = Log (LogReceived s (String.length raw))
      (outcome_of s (decode_image imdecode raw)).
Proof.
  unfold handle_identify_face, identify_body, decode_image. simpl.
  f_equal.
  destruct (select_base64_data raw) as [d|e]; simpl; [|reflexivity].
  unfold identify_data.
  destruct (decode_data imdecode d) as [[img|]|e]; reflexivity.
Qed.

Lemma identify_body_data (s : sid) (raw d : string) :
  select_base64_data raw = Ok d ->
  identify_body imdecode s raw = identify_data imdecode s d.
Proof. intros H. unfold identify_body. now rewrite H. Qed.

End Shape.

(** ** The event loop keeps only sleeping handlers of one shape *)

Lemma Forall_remove_nth {A : Type} (P : A -> Prop) (n : nat) (l : list A) :
  Forall P l -> Forall P (remove_nth n l).
Proof.
  intros H. revert n.
  induction H as [|a l Ha Hl IH]; intros [|n]; simpl; auto.
Qed.

Lemma Forall_nth_error {A : Type} (P : A -> Prop) (n : nat) (l : list A) a :
  Forall P l -> nth_error l n = Some a -> P a.
Proof.
  intros H Hn. apply nth_error_In in Hn.
  rewrite Forall_forall in H. auto.
Qed.

Section Invariant.

Variable imdecode : bytes -> Z -> result (option bitmap).

Lemma step_well_formed (srv : server) (i : input) :
  well_formed srv -> well_formed (step imdecode srv i).
Proof.
  intros [Ht Hf]. destruct i as [s|s|s raw|n]; simpl.
  - split; simpl; assumption.
  - split; simpl; assumption.
  - rewrite handle_identify_face_shape. unfold run_task. simpl.
    destruct (decode_image imdecode raw) as [[img|]|e]; simpl;
      split; simpl; try assumption.
    apply Forall_app. split; [assumption|]. repeat constructor.
  - destruct (nth_error (tasks srv) n) as [[s k]|] eqn:Hn;
      [|split; assumption].
    pose proof (Forall_nth_error _ _ _ _ Ht Hn) as Hk. simpl in Hk.
    subst k. unfold run_task. simpl.
    split; simpl; [|assumption].
    now apply Forall_remove_nth.
Qed.

Lemma run_well_formed (inputs : list input) (srv : server) :
  well_formed srv -> well_formed (run imdecode srv inputs).
Proof.
  revert srv. induction inputs as [|i inputs IH]; intros srv H; simpl.
  - exact H.
  - apply IH. now apply step_well_formed.
Qed.

End Invariant.

Lemma init_well_formed : well_formed init.
Proof. split; [constructor | reflexivity]. Qed.

Lemma nth_error_last {A : Type} (l : list A) (a : A) :
  nth_error (l ++ [a]) (List.length l) = Some a.
Proof. induction l as [|b l IH]; simpl; auto. Qed.

Lemma remove_nth_last {A : Type} (l : list A) (a : A) :
  remove_nth (List.length l) (l ++ [a]) = l.
Proof. induction l as [|b l IH]; simpl; [reflexivity | now rewrite IH]. Qed.

Lemma outstanding_snoc (srv : server) (s : sid) (k : coro unit) out con fl :
  outstanding (mk_server (tasks srv ++ [(s, k)]) out con fl) s
  = S (outstanding srv s).
Proof.
  unfold outstanding. simpl.
  rewrite filter_app, length_app. simpl.
  rewrite String.eqb_refl. simpl. apply Nat.add_1_r.
Qed.

Section Suspension.

Variable imdecode : bytes -> Z -> result (option bitmap).

(** What one inbound event with a decodable image does to the server. *)
Lemma step_identify_valid (srv : server) (s : sid) (raw : string)
      (img : bitmap) :
  decode_image imdecode raw = Ok (Some img) ->
  step imdecode srv (IdentifyFace s raw)
  = mk_server (tasks srv ++ [(s, after_sleep s)])
              (outbox srv ++ [])
              (console srv ++ [LogReceived s (String.length raw)])
              (faults srv).
Proof.
  intros H. simpl. rewrite handle_identify_face_shape, H. reflexivity.
Qed.

(** What a disconnect does: one printed line. *)
Lemma step_disconnected (srv : server) (s : sid) :
  step imdecode srv (Disconnected s)
  = mk_server (tasks srv) (outbox srv ++ [])
              (console srv ++ [LogDisconnected s]) (faults srv).
Proof. reflexivity. Qed.

(** What the end of that handler's sleep does. *)
Lemma step_timer_last (srv : server) (s : sid) out con fl :
  step imdecode
       (mk_server (tasks srv ++ [(s, after_sleep s)]) out con fl)
       (TimerFired (List.length (tasks srv)))
  = mk_server (tasks srv) (out ++ [auth_success s])
              (con ++ [LogSent s (name the_user)]) fl.
Proof.
  simpl. rewrite nth_error_last, remove_nth_last. reflexivity.
Qed.

End Suspension.

(** ** The terminal event *)

(** C1: an inbound identify-face event whose payload decodes to a valid
    image makes the handler emit exactly one outbound event, addressed to
    the originating session, and that event is auth-success or auth-fail
    (here always auth-success); no exception escapes the handler. *)
Theorem exactly_one_terminal_event
    (imdecode : bytes -> Z -> result (option bitmap))
    (s : sid) (raw : string) (img : bitmap) :
  decode_image imdecode raw = Ok (Some img) ->
  exists m : emission,
    emissions (handle_identify_face imdecode s raw) = [m]
    /\ List.length (emissions (handle_identify_face imdecode s raw)) = 1
    /\ to m = s
    /\ (event m = "auth-success" \/ event m = "auth-fail")
    /\ m = auth_success s
    /\ uncaught (handle_identify_face imdecode s raw) = None.
Proof.
  intros H. exists (auth_success s).
  rewrite handle_identify_face_shape, H. simpl.
  repeat split. now left.
Qed.

Lemma exactly_one_terminal_event_witness :
  exists m : emission,
    emissions (handle_identify_face marker_codec sid1 jpeg_payload) = [m]
    /\ List.length
         (emissions (handle_identify_face marker_codec sid1 jpeg_payload)) = 1
    /\ to m = sid1
    /\ (event m = "auth-success" \/ event m = "auth-fail")
    /\ m = auth_success sid1
    /\ uncaught (handle_identify_face marker_codec sid1 jpeg_payload) = None.
Proof.
  apply (exactly_one_terminal_event marker_codec sid1 jpeg_payload
           (mk_bitmap 1 1 ["000"%byte; "000"%byte; "000"%byte])).
  reflexivity.
Defined.

(** ** Malformed base64 *)

(** C2, as stated, fails: the payload [not-valid-base64!!] makes
    [b64decode] raise, and the handler then emits auth-fail. *)
Lemma bad_encoding_not_silent : ~ silent_on_bad_encoding marker_codec.
Proof.
  intros H.
  specialize (H sid1 bad_payload bad_payload BinasciiError
                eq_refl eq_refl).
  vm_compute in H. discriminate H.
Qed.

(** C2, amended: when the base64 text of an inbound identify-face event
    does not decode, so that [b64decode] raises, the handler prints the
    error and emits exactly one auth-fail event, without payload, to the
    originating session; it does not suspend and no exception escapes. *)
Theorem bad_encoding_emits_auth_fail
    (imdecode : bytes -> Z -> result (option bitmap))
    (s : sid) (raw d : string) (e : exn) :
  select_base64_data raw = Ok d ->
  b64decode d = Err e ->
  handle_identify_face imdecode s raw
  = Log (LogReceived s (String.length raw))
      (Log (LogError e) (Emit (auth_fail s) (Ret tt)))
  /\ emissions (handle_identify_face imdecode s raw) = [auth_fail s]
  /\ seg_status (run_segment (handle_identify_face imdecode s raw)) = Finished
  /\ uncaught (handle_identify_face imdecode s raw) = None.
Proof.
  intros Hd He.
  assert (Hi : decode_image imdecode raw = Err e).
  { unfold decode_image, decode_data. now rewrite Hd, He. }
  rewrite handle_identify_face_shape, Hi. simpl. repeat split.
Qed.

Lemma bad_encoding_emits_auth_fail_witness :
  handle_identify_face marker_codec sid1 bad_payload
  = Log (LogReceived sid1 (String.length bad_payload))
      (Log (LogError BinasciiError) (Emit (auth_fail sid1) (Ret tt)))
  /\ emissions (handle_identify_face marker_codec sid1 bad_payload)
     = [auth_fail sid1]
  /\ seg_status (run_segment (handle_identify_face marker_codec sid1
                                bad_payload)) = Finished
  /\ uncaught (handle_identify_face marker_codec sid1 bad_payload) = None.
Proof.
  apply (bad_encoding_emits_auth_fail marker_codec sid1 bad_payload
           bad_payload BinasciiError); reflexivity.
Defined.

(** ** Two events on one session *)

(** C3, as stated, fails, whatever the image decoder: as soon as some
    payload decodes to an image, sending it twice on one session leaves
    the second event unanswered (no auth-fail) with the first call still
    asleep.  No decoder that reads any payload as an image gives the
    reject-with-busy policy. *)
Lemma busy_not_rejected :
  ~ exists (imdecode : bytes -> Z -> result (option bitmap))
           (raw : string) (img : bitmap),
      decode_image imdecode raw = Ok (Some img)
      /\ rejects_when_busy imdecode.
Proof.
  intros (imdecode & raw & img & Hd & H).
  specialize (H [IdentifyFace sid1 raw] sid1 raw). cbv zeta in H.
  cbn [run fold_left] in H.
  rewrite !(step_identify_valid imdecode _ sid1 raw img Hd) in H.
  cbn [tasks outbox console faults init] in H.
  assert (Hbusy : 1 <= outstanding
                         (mk_server ([] ++ [(sid1, after_sleep sid1)])
                                    ([] ++ [])
                                    ([] ++ [LogReceived sid1
                                              (String.length raw)]) [])
                         sid1) by (vm_compute; apply le_n).
  destruct (H Hbusy) as [Hout _]. discriminate Hout.
Qed.

(** C3, amended: the handler has no busy guard.  An identify-face event
    with a decodable image that arrives on a session, whether or not a
    recognition call of that session is outstanding, emits nothing at once
    and starts one more call, so the number of the session's outstanding
    calls grows by one; when the sleep of that call ends it emits its own
    auth-success to the session. *)
Theorem second_event_starts_second_call
    (imdecode : bytes -> Z -> result (option bitmap))
    (srv : server) (s : sid) (raw : string) (img : bitmap) :
  decode_image imdecode raw = Ok (Some img) ->
  let srv' := step imdecode srv (IdentifyFace s raw) in
  outbox srv' = outbox srv
  /\ tasks srv' = tasks srv ++ [(s, after_sleep s)]
  /\ outstanding srv' s = S (outstanding srv s)
  /\ outbox (step imdecode srv' (TimerFired (List.length (tasks srv))))
     = outbox srv ++ [auth_success s].
Proof.
  intros H srv'. subst srv'.
  rewrite (step_identify_valid imdecode srv s raw img H).
  rewrite step_timer_last, outstanding_snoc. simpl.
  rewrite app_nil_r. repeat split.
Qed.

Lemma second_event_starts_second_call_witness :
  let srv := run marker_codec init [IdentifyFace sid1 jpeg_payload] in
  let srv' := step marker_codec srv (IdentifyFace sid1 jpeg_payload) in
  outstanding srv sid1 = 1
  /\ outbox srv' = outbox srv
  /\ tasks srv' = tasks srv ++ [(sid1, after_sleep sid1)]
  /\ outstanding srv' sid1 = 2
  /\ outbox (step marker_codec srv' (TimerFired (List.length (tasks srv))))
     = outbox srv ++ [auth_success sid1].
Proof.
  split; [reflexivity|].
  apply (second_event_starts_second_call marker_codec
           (run marker_codec init [IdentifyFace sid1 jpeg_payload])
           sid1 jpeg_payload
           (mk_bitmap 1 1 ["000"%byte; "000"%byte; "000"%byte])).
  reflexivity.
Defined.

(** ** Disconnecting during a call *)

(** C4, as stated, fails, whatever the image decoder: as soon as some
    payload decodes to an image, a session that sends it and disconnects
    during the sleep is still sent auth-success when the sleep ends.  No
    decoder that reads any payload as an image gives the discard policy. *)
Lemma result_not_discarded :
  ~ exists (imdecode : bytes -> Z -> result (option bitmap))
           (raw : string) (img : bitmap),
      decode_image imdecode raw = Ok (Some img)
      /\ discards_after_disconnect imdecode.
Proof.
  intros (imdecode & raw & img & Hd & H).
  specialize (H [IdentifyFace sid1 raw] sid1 [0%nat]). cbv zeta in H.
  cbn [run fold_left map] in H.
  rewrite (step_identify_valid imdecode init sid1 raw img Hd) in H.
  rewrite step_disconnected in H.
  cbn [tasks outbox console faults init] in H.
  assert (Hbusy : 1 <= outstanding
                         (mk_server ([] ++ [(sid1, after_sleep sid1)])
                                    (([] ++ []) ++ [])
                                    (([] ++ [LogReceived sid1
                                               (String.length raw)])
                                     ++ [LogDisconnected sid1]) [])
                         sid1) by (vm_compute; apply le_n).
  specialize (H Hbusy). discriminate H.
Qed.

(** C4, amended: a disconnect while the session's recognition call is
    outstanding only prints a line; the call is neither cancelled nor its
    result discarded.  When the sleep ends the handler still calls emit
    with auth-success addressed to that session, exactly once, and the
    handler finishes without an exception escaping. *)
Theorem disconnect_leaves_call_running
    (imdecode : bytes -> Z -> result (option bitmap))
    (srv : server) (s : sid) (raw : string) (img : bitmap) :
  decode_image imdecode raw = Ok (Some img) ->
  let srv1 := step imdecode srv (IdentifyFace s raw) in
  let srv2 := step imdecode srv1 (Disconnected s) in
  let srv3 := step imdecode srv2 (TimerFired (List.length (tasks srv))) in
  tasks srv2 = tasks srv1
  /\ outbox srv2 = outbox srv1
  /\ faults srv2 = faults srv1
  /\ console srv2 = console srv1 ++ [LogDisconnected s]
  /\ outstanding srv2 s = S (outstanding srv s)
  /\ outbox srv3 = outbox srv ++ [auth_success s]
  /\ tasks srv3 = tasks srv
  /\ faults srv3 = faults srv.
Proof.
  intros H srv1 srv2 srv3. subst srv3 srv2 srv1.
  rewrite (step_identify_valid imdecode srv s raw img H).
  rewrite step_disconnected.
  cbn [tasks outbox console faults].
  rewrite step_timer_last, outstanding_snoc. simpl.
  rewrite !app_nil_r. repeat split.
Qed.

Lemma disconnect_leaves_call_running_witness :
  let srv1 := step marker_codec init (IdentifyFace sid1 jpeg_payload) in
  let srv2 := step marker_codec srv1 (Disconnected sid1) in
  let srv3 := step marker_codec srv2 (TimerFired (List.length (tasks init))) in
  tasks srv2 = tasks srv1
  /\ outbox srv2 = outbox srv1
  /\ faults srv2 = faults srv1
  /\ console srv2 = console srv1 ++ [LogDisconnected sid1]
  /\ outstanding srv2 sid1 = S (outstanding init sid1)
  /\ outbox srv3 = outbox init ++ [auth_success sid1]
  /\ tasks srv3 = tasks init
  /\ faults srv3 = faults init.
Proof.
  apply (disconnect_leaves_call_running marker_codec init sid1 jpeg_payload
           (mk_bitmap 1 1 ["000"%byte; "000"%byte; "000"%byte])).
  reflexivity.
Defined.

(** ** Bytes that are no image *)

(** C5, as stated, fails for every decoder that raises on some buffer
    instead of returning [None], as [cv2.imdecode] does on the empty
    buffer: the payload made of a comma and a text that decodes to such a
    buffer holds no image, and the handler answers it with auth-fail. *)
Lemma non_image_not_always_silent :
  ~ exists (imdecode : bytes -> Z -> result (option bitmap))
           (d : string) (img_data : bytes) (e : exn),
      b64decode d = Ok img_data
      /\ imdecode (frombuffer_uint8 img_data) IMREAD_COLOR = Err e
      /\ silent_on_non_image imdecode.
Proof.
  intros (imdecode & d & img_data & e & Hb & Hi & H).
  specialize (H sid1 (String comma d) d img_data eq_refl Hb).
  assert (Hno : forall img : bitmap,
             imdecode (frombuffer_uint8 img_data) IMREAD_COLOR
             <> Ok (Some img)) by (intros img; rewrite Hi; discriminate).
  specialize (H Hno).
  rewrite handle_identify_face_shape in H.
  change (decode_image imdecode (String comma d))
    with (decode_data imdecode d) in H.
  unfold decode_data in H. rewrite Hb, Hi in H.
  discriminate H.
Qed.

(** C5, amended: when the base64 text of an inbound identify-face event
    decodes to bytes for which the image decoder returns [None], the
    handler prints
    the decode failure and returns at once: it emits no event, does not
    suspend, lets no exception escape, and leaves the server's sleeping
    handlers and outbox as they were. *)
Theorem undecodable_image_silent_drop
    (imdecode : bytes -> Z -> result (option bitmap))
    (srv : server) (s : sid) (raw d : string) (img_data : bytes) :
  select_base64_data raw = Ok d ->
  b64decode d = Ok img_data ->
  imdecode (frombuffer_uint8 img_data) IMREAD_COLOR = Ok None ->
  handle_identify_face imdecode s raw
  = Log (LogReceived s (String.length raw))
      (Log (LogDecodeFailed s) (Ret tt))
  /\ emissions (handle_identify_face imdecode s raw) = []
  /\ seg_status (run_segment (handle_identify_face imdecode s raw)) = Finished
  /\ uncaught (handle_identify_face imdecode s raw) = None
  /\ tasks (step imdecode srv (IdentifyFace s raw)) = tasks srv
  /\ outbox (step imdecode srv (IdentifyFace s raw)) = outbox srv.
Proof.
  intros Hd Hb Hi.
  assert (H : decode_image imdecode raw = Ok None).
  { unfold decode_image, decode_data. now rewrite Hd, Hb. }
  cbn [step]. rewrite handle_identify_face_shape, H.
  unfold run_task. simpl.
  repeat split. apply app_nil_r.
Qed.

Lemma undecodable_image_silent_drop_witness :
  handle_identify_face marker_codec sid1 text_payload
  = Log (LogReceived sid1 (String.length text_payload))
      (Log (LogDecodeFailed sid1) (Ret tt))
  /\ emissions (handle_identify_face marker_codec sid1 text_payload) = []
  /\ seg_status (run_segment (handle_identify_face marker_codec sid1
                                text_payload)) = Finished
  /\ uncaught (handle_identify_face marker_codec sid1 text_payload) = None
  /\ tasks (step marker_codec init (IdentifyFace sid1 text_payload))
     = tasks init
  /\ outbox (step marker_codec init (IdentifyFace sid1 text_payload))
     = outbox init.
Proof.
  apply (undecodable_image_silent_drop marker_codec init sid1 text_payload
           text_payload ["A"%byte; "B"%byte; "C"%byte]); reflexivity.
Defined.

(** ** Header and data *)

(** C6: when the inbound text contains a comma, it splits as a comma-free
    header, the first comma, and a rest; that rest alone is selected as the
    base64 data and is what the [try] block goes on to decode.  When it
    contains no comma, the whole text is selected. *)
Theorem payload_after_first_comma
    (imdecode : bytes -> Z -> result (option bitmap))
    (s : sid) (raw : string) :
  (contains_comma raw = true ->
   exists header rest : string,
     raw = (header ++ String comma rest)%string
     /\ contains_comma header = false
     /\ select_base64_data raw = Ok rest
     /\ identify_body imdecode s raw = identify_data imdecode s rest
     /\ decode_image imdecode raw = decode_data imdecode rest)
  /\ (contains_comma raw = false ->
      select_base64_data raw = Ok raw
      /\ identify_body imdecode s raw = identify_data imdecode s raw
      /\ decode_image imdecode raw = decode_data imdecode raw).
Proof.
  split; intros H.
  - destruct (select_base64_data_comma raw H) as (h & r & E & Hh & Hs).
    exists h, r. repeat split; try assumption.
    + now apply identify_body_data.
    + unfold decode_image. now rewrite Hs.
  - pose proof (select_base64_data_plain raw H) as Hs.
    repeat split; try assumption.
    + now apply identify_body_data.
    + unfold decode_image. now rewrite Hs.
Qed.

Lemma payload_after_first_comma_witness :
  (exists header rest : string,
     "a,b,c" = (header ++ String comma rest)%string
     /\ contains_comma header = false
     /\ select_base64_data "a,b,c" = Ok rest
     /\ identify_body marker_codec sid1 "a,b,c"
        = identify_data marker_codec sid1 rest
     /\ decode_image marker_codec "a,b,c" = decode_data marker_codec rest)
  /\ (select_base64_data text_payload = Ok text_payload
      /\ identify_body marker_codec sid1 text_payload
         = identify_data marker_codec sid1 text_payload
      /\ decode_image marker_codec text_payload
         = decode_data marker_codec text_payload).
Proof.
  split.
  - apply (proj1 (payload_after_first_comma marker_codec sid1 "a,b,c")).
    reflexivity.
  - apply (proj2 (payload_after_first_comma marker_codec sid1 text_payload)).
    reflexivity.
Defined.

(** ** No exception reaches the event loop *)

(** C7: whatever the payload and whatever the decoders do, return or
    raise, no exception escapes the identify-face handler.  A payload that
    decodes to no image ends in a silent drop, one on which a decoding call
    raises ends in one auth-fail, and one that decodes to an image ends in
    one auth-success; and on no sequence of inputs does the event loop ever
    see a fault. *)
Theorem no_fault_escapes_handler
    (imdecode : bytes -> Z -> result (option bitmap)) :
  (forall (s : sid) (raw : string),
      uncaught (handle_identify_face imdecode s raw) = None
      /\ ((decode_image imdecode raw = Ok None
           /\ emissions (handle_identify_face imdecode s raw) = [])
          \/ (exists e : exn,
                 decode_image imdecode raw = Err e
                 /\ emissions (handle_identify_face imdecode s raw)
                    = [auth_fail s])
          \/ (exists img : bitmap,
                 decode_image imdecode raw = Ok (Some img)
                 /\ emissions (handle_identify_face imdecode s raw)
                    = [auth_success s])))
  /\ (forall inputs : list input,
         faults (run imdecode init inputs) = []).
Proof.
  split.
  - intros s raw. rewrite handle_identify_face_shape.
    destruct (decode_image imdecode raw) as [[img|]|e]; simpl; split;
      try reflexivity.
    + right; right. exists img. auto.
    + left. auto.
    + right; left. exists e. auto.
  - intros inputs.
    apply (run_well_formed imdecode inputs init init_well_formed).
Qed.

(** ** The success event *)

(** C8: for an inbound identify-face event whose payload decodes to an
    image, the handler first emits nothing and suspends on a sleep of half
    a second; when resumed it emits auth-success to the originating
    session, with a payload whose id and name are both non-empty, and
    finishes. *)
Theorem success_after_latency
    (imdecode : bytes -> Z -> result (option bitmap))
    (s : sid) (raw : string) (img : bitmap) :
  decode_image imdecode raw = Ok (Some img) ->
  exists (k : coro unit) (u : user),
    run_segment (handle_identify_face imdecode s raw)
    = mk_segment [] [LogReceived s (String.length raw)] (Suspended 0.5%Q k)
    /\ (0.5 == 500 # 1000)%Q
    /\ run_segment k
       = mk_segment [mk_emission "auth-success" (Some u) s]
                    [LogSent s (name u)] Finished
    /\ id u <> ""
    /\ name u <> "".
Proof.
  intros H. exists (after_sleep s), the_user.
  rewrite handle_identify_face_shape, H. simpl.
  repeat split; discriminate.
Qed.

Lemma success_after_latency_witness :
  exists (k : coro unit) (u : user),
    run_segment (handle_identify_face marker_codec sid1 jpeg_payload)
    = mk_segment [] [LogReceived sid1 (String.length jpeg_payload)]
                 (Suspended 0.5%Q k)
    /\ (0.5 == 500 # 1000)%Q
    /\ run_segment k
       = mk_segment [mk_emission "auth-success" (Some u) sid1]
                    [LogSent sid1 (name u)] Finished
    /\ id u <> ""
    /\ name u <> "".
Proof.
  apply (success_after_latency marker_codec sid1 jpeg_payload
           (mk_bitmap 1 1 ["000"%byte; "000"%byte; "000"%byte])).
  reflexivity.
Defined.

(** C9: the result does not depend on the image.  For any two payloads
    that decode to images, whatever the images and the decoder, the
    handlers emit the same event with the same payload, the constant
    id "p123" and name "김철수". *)
Theorem result_independent_of_image
    (imdecode : bytes -> Z -> result (option bitmap))
    (s1 s2 : sid) (raw1 raw2 : string) (img1 img2 : bitmap) :
  decode_image imdecode raw1 = Ok (Some img1) ->
  decode_image imdecode raw2 = Ok (Some img2) ->
  map data (emissions (handle_identify_face imdecode s1 raw1))
  = map data (emissions (handle_identify_face imdecode s2 raw2))
  /\ map event (emissions (handle_identify_face imdecode s1 raw1))
     = map event (emissions (handle_identify_face imdecode s2 raw2))
  /\ map data (emissions (handle_identify_face imdecode s1 raw1))
     = [Some (mk_user "p123" "김철수")].
Proof.
  intros H1 H2. rewrite !handle_identify_face_shape, H1, H2. simpl.
  repeat split.
Qed.

Lemma result_independent_of_image_witness :
  map data (emissions (handle_identify_face marker_codec sid1 jpeg_payload))
  = map data
      (emissions (handle_identify_face marker_codec "b7Qe" bare_jpeg_payload))
  /\ map event
       (emissions (handle_identify_face marker_codec sid1 jpeg_payload))
     = map event
         (emissions
            (handle_identify_face marker_codec "b7Qe" bare_jpeg_payload))
  /\ map data (emissions (handle_identify_face marker_codec sid1 jpeg_payload))
     = [Some (mk_user "p123" "김철수")].
Proof.
  apply (result_independent_of_image marker_codec sid1 "b7Qe"
           jpeg_payload bare_jpeg_payload
           (mk_bitmap 1 1 ["000"%byte; "000"%byte; "000"%byte])
           (mk_bitmap 1 1 ["000"%byte; "000"%byte; "000"%byte]));
    reflexivity.
Defined.

(** ** The empty payload *)

(** C10, as stated, fails for every decoder that raises on the empty
    buffer, as [cv2.imdecode] does: the empty payload then makes the
    handler emit auth-fail. *)
Lemma empty_payload_not_silent :
  ~ exists (imdecode : bytes -> Z -> result (option bitmap)) (e : exn),
      imdecode [] IMREAD_COLOR = Err e
      /\ empty_payload_silent imdecode.
Proof.
  intros (imdecode & e & Hi & H).
  destruct (H sid1) as [_ Hs].
  rewrite handle_identify_face_shape in Hs.
  change (decode_image imdecode "") with (imdecode [] IMREAD_COLOR) in Hs.
  rewrite Hi in Hs. discriminate Hs.
Qed.

(** C10, amended: an empty-string payload is handled without fault: it
    contains no delimiter and base64-decodes to the empty byte buffer,
    which goes to the image decoder.  What the handler emits follows the
    decoder on that buffer: nothing when it returns no image, one
    auth-fail when it raises, one auth-success were it to return an
    image. *)
Theorem empty_payload_outcome
    (imdecode : bytes -> Z -> result (option bitmap)) (s : sid) :
  contains_comma "" = false
  /\ select_base64_data "" = Ok ""
  /\ b64decode "" = Ok []
  /\ decode_image imdecode "" = imdecode [] IMREAD_COLOR
  /\ uncaught (handle_identify_face imdecode s "") = None
  /\ ((imdecode [] IMREAD_COLOR = Ok None
       /\ emissions (handle_identify_face imdecode s "") = [])
      \/ (exists e : exn,
             imdecode [] IMREAD_COLOR = Err e
             /\ emissions (handle_identify_face imdecode s "")
                = [auth_fail s])
      \/ (exists img : bitmap,
             imdecode [] IMREAD_COLOR = Ok (Some img)
             /\ emissions (handle_identify_face imdecode s "")
                = [auth_success s])).
Proof.
  repeat split.
  - rewrite handle_identify_face_shape.
    change (decode_image imdecode "") with (imdecode [] IMREAD_COLOR).
    destruct (imdecode [] IMREAD_COLOR) as [[img|]|e]; reflexivity.
  - rewrite handle_identify_face_shape.
    change (decode_image imdecode "") with (imdecode [] IMREAD_COLOR).
    destruct (imdecode [] IMREAD_COLOR) as [[img|]|e]; simpl.
    + right; right. exists img. auto.
    + left. auto.
    + right; left. exists e. auto.
Qed.

(** The empty text has no comma and decodes to the empty buffer, and no
    exception escapes the handler; what the handler then emits is what the
    image decoder makes of an empty buffer: nothing when it returns no
    image, auth-fail when it raises. *)
Lemma empty_payload_follows_codec
    (imdecode : bytes -> Z -> result (option bitmap)) (s : sid) :
  contains_comma "" = false
  /\ b64decode "" = Ok []
  /\ handle_identify_face imdecode s ""
     = Log (LogReceived s 0) (outcome_of s (imdecode [] IMREAD_COLOR))
  /\ uncaught (handle_identify_face imdecode s "") = None.
Proof.
  repeat split.
  - apply handle_identify_face_shape.
  - rewrite handle_identify_face_shape.
    change (decode_image imdecode "") with (imdecode [] IMREAD_COLOR).
    destruct (imdecode [] IMREAD_COLOR) as [[img|]|e]; reflexivity.
Qed.

(** ** Sample runs *)

(** Two events back to back on one session: both calls are asleep at once,
    nothing has been emitted, and each later reports success. *)
Example two_calls_outstanding :
  let srv :=
    run marker_codec init
        [Connected sid1; IdentifyFace sid1 jpeg_payload;
         IdentifyFace sid1 bare_jpeg_payload] in
  outstanding srv sid1 = 2
  /\ outbox srv = []
  /\ outbox (run marker_codec srv [TimerFired 0; TimerFired 0])
     = [auth_success sid1; auth_success sid1].
Proof. repeat split. Qed.

(** A disconnect between the event and the end of the sleep. *)
Example emitted_after_disconnect :
  let srv :=
    run marker_codec init
        [Connected sid1; IdentifyFace sid1 jpeg_payload; Disconnected sid1] in
  outbox srv = []
  /\ run marker_codec srv [TimerFired 0]
     = mk_server [] [auth_success sid1]
         [LogConnected sid1;
          LogReceived sid1 (String.length jpeg_payload);
          LogDisconnected sid1;
          LogSent sid1 (name the_user)]
         [].
Proof. repeat split. Qed.

(** Without the [try] statement the same payload would crash the handler. *)
Example body_alone_raises :
  uncaught (identify_body marker_codec sid1 bad_payload) = Some BinasciiError
  /\ printed (handle_identify_face marker_codec sid1 bad_payload)
     = [LogReceived sid1 18; LogError BinasciiError].
Proof. repeat split. Qed.

(** The decoder model on the sample payloads. *)
Example b64decode_jpeg_opening :
  b64decode "/9j/2wBD"
  = Ok ["255"%byte; "216"%byte; "255"%byte; "219"%byte; "000"%byte;
        "C"%byte].
Proof. reflexivity. Qed.

Example b64decode_stops_at_padding : b64decode "QUJ=DRA" = Ok ["A"%byte; "B"%byte].
Proof. reflexivity. Qed.

Example b64decode_skips_foreign_characters :
  b64decode "Q!U-J D" = Ok ["A"%byte; "B"%byte; "C"%byte].
Proof. reflexivity. Qed.

Example b64decode_bad_length : b64decode bad_payload = Err BinasciiError.
Proof. reflexivity. Qed.

Example b64decode_non_ascii : b64decode "김" = Err ValueError.
Proof. reflexivity. Qed.

Example split_comma_1_data_url :
  split_comma_1 "data:image/png;base64,iVBO,Rw0K"
  = ["data:image/png;base64"; "iVBO,Rw0K"].
Proof. reflexivity. Qed.

(** * Further properties of the decoding step *)

(** ** One step of the decoding loop *)

Lemma is_ascii_str_app (a b : string) :
  is_ascii_str (a ++ b) = is_ascii_str a && is_ascii_str b.
Proof.
  induction a as [|c a IH]; simpl; [reflexivity|].
  now rewrite IH, andb_assoc.
Qed.

Lemma foreign_inv (c : ascii) :
  foreign c = true ->
  (N_of_ascii c <? 128)%N = true
  /\ Ascii.eqb c BASE64_PAD = false
  /\ b64_value c = None.
Proof.
  unfold foreign. intros H.
  apply andb_prop in H. destruct H as [H H3].
  apply andb_prop in H. destruct H as [H1 H2].
  repeat split; try assumption.
  - now apply negb_true_iff.
  - destruct (b64_value c); [discriminate | reflexivity].
Qed.

Lemma a2b_base64_loop_foreign (c : ascii) (s : string) (q l p : N) :
  foreign c = true ->
  a2b_base64_loop (String c s) q l p = a2b_base64_loop s q l p.
Proof.
  intros H. destruct (foreign_inv c H) as (_ & Hp & Hv).
  simpl. now rewrite Hp, Hv.
Qed.

Lemma a2b_base64_loop_insert (c : ascii) (s1 s2 : string) :
  foreign c = true ->
  forall q l p : N,
    a2b_base64_loop (s1 ++ String c s2) q l p
    = a2b_base64_loop (s1 ++ s2) q l p.
Proof.
  intros H. induction s1 as [|a s1 IH]; intros q l p.
  - now apply a2b_base64_loop_foreign.
  - cbn [append a2b_base64_loop].
    destruct (Ascii.eqb a BASE64_PAD).
    + now rewrite !IH.
    + destruct (b64_value a) as [v|]; [|apply IH].
      cbv zeta. now rewrite !IH.
Qed.

Lemma b64decode_insert_foreign (c : ascii) (d1 d2 : string) :
  foreign c = true ->
  b64decode (d1 ++ String c d2) = b64decode (d1 ++ d2).
Proof.
  intros H. unfold b64decode, a2b_base64.
  rewrite (a2b_base64_loop_insert c d1 d2 H), !is_ascii_str_app.
  destruct (foreign_inv c H) as (Ha & _ & _).
  simpl. now rewrite Ha.
Qed.

(** A comma-free header followed by a comma is cut off whole. *)
Lemma select_base64_data_header (header rest : string) :
  contains_comma header = false ->
  contains_comma (header ++ String comma rest) = true
  /\ select_base64_data (header ++ String comma rest) = Ok rest.
Proof.
  intros H.
  assert (Hc : contains_comma (header ++ String comma rest) = true).
  { clear H. induction header as [|c h IH]; simpl; [reflexivity|].
    now destruct (Ascii.eqb c comma). }
  split; [exact Hc|].
  unfold select_base64_data. rewrite Hc. clear Hc.
  assert (Hs : split_comma_1 (header ++ String comma rest) = [header; rest]).
  { induction header as [|c h IH]; simpl in *; [reflexivity|].
    destruct (Ascii.eqb c comma); [discriminate|].
    now rewrite (IH H). }
  now rewrite Hs.
Qed.

Section Decoding.

Variable imdecode : bytes -> Z -> result (option bitmap).

Lemma decode_image_header (header rest : string) :
  contains_comma header = false ->
  decode_image imdecode (header ++ String comma rest)
  = decode_data imdecode rest.
Proof.
  intros H. unfold decode_image.
  now rewrite (proj2 (select_base64_data_header header rest H)).
Qed.

(** The events of a handler are those of its outcome. *)
Lemma emissions_handle (s : sid) (raw : string) :
  emissions (handle_identify_face imdecode s raw)
  = emissions (outcome_of s (decode_image imdecode raw)).
Proof. now rewrite handle_identify_face_shape. Qed.

End Decoding.

(** ** The header is never looked at *)

(** X1: the unpacking on line 70 cannot raise.  Whatever the text, the
    selection of lines 69-72 returns; when the text has a comma the split
    has exactly two parts, however many commas there are. *)
Theorem header_unpacking_never_raises (raw : string) :
  (exists d : string, select_base64_data raw = Ok d)
  /\ List.length (split_comma_1 raw)
     = (if contains_comma raw then 2 else 1)%nat.
Proof.
  split; [apply select_base64_data_total|].
  induction raw as [|c raw IH]; simpl; [reflexivity|].
  destruct (Ascii.eqb c comma); [reflexivity|].
  destruct (split_comma_1 raw) as [|h t]; simpl in *.
  - destruct (contains_comma raw); discriminate.
  - exact IH.
Qed.

(** X2: the header is ignored.  Two payloads with comma-free headers and
    the same text after the first comma decode to the same result and make
    the handler emit the same events; so does that text sent with an empty
    header. *)
Theorem header_is_ignored
    (imdecode : bytes -> Z -> result (option bitmap))
    (s : sid) (header1 header2 rest : string) :
  contains_comma header1 = false ->
  contains_comma header2 = false ->
  decode_image imdecode (header1 ++ String comma rest)
  = decode_image imdecode (header2 ++ String comma rest)
  /\ emissions (handle_identify_face imdecode s
                  (header1 ++ String comma rest))
     = emissions (handle_identify_face imdecode s
                    (header2 ++ String comma rest))
  /\ decode_image imdecode (header1 ++ String comma rest)
     = decode_image imdecode (String comma rest).
Proof.
  intros H1 H2.
  rewrite !emissions_handle.
  rewrite (decode_image_header imdecode header1 rest H1).
  rewrite (decode_image_header imdecode header2 rest H2).
  repeat split.
Qed.

Lemma header_is_ignored_witness :
  decode_image marker_codec ("data:image/jpeg;base64" ++ String comma "/9j/2wBD")
  = decode_image marker_codec ("text/plain" ++ String comma "/9j/2wBD")
  /\ emissions (handle_identify_face marker_codec sid1
                  ("data:image/jpeg;base64" ++ String comma "/9j/2wBD"))
     = emissions (handle_identify_face marker_codec sid1
                    ("text/plain" ++ String comma "/9j/2wBD"))
  /\ decode_image marker_codec
       ("data:image/jpeg;base64" ++ String comma "/9j/2wBD")
     = decode_image marker_codec (String comma "/9j/2wBD").
Proof.
  apply (header_is_ignored marker_codec sid1 "data:image/jpeg;base64"
           "text/plain" "/9j/2wBD"); reflexivity.
Defined.

(** ** Characters outside the alphabet *)

(** X3: an ASCII character that is neither in the base64 alphabet nor the
    pad (a space, a line break, a further comma) may stand anywhere in the
    data after the header without changing what the payload decodes to or
    what the handler emits. *)
Theorem foreign_character_is_skipped
    (imdecode : bytes -> Z -> result (option bitmap))
    (s : sid) (header d1 d2 : string) (c : ascii) :
  contains_comma header = false ->
  foreign c = true ->
  decode_image imdecode (header ++ String comma (d1 ++ String c d2))
  = decode_image imdecode (header ++ String comma (d1 ++ d2))
  /\ emissions (handle_identify_face imdecode s
                  (header ++ String comma (d1 ++ String c d2)))
     = emissions (handle_identify_face imdecode s
                    (header ++ String comma (d1 ++ d2))).
Proof.
  intros Hh Hc.
  rewrite !emissions_handle, !(decode_image_header imdecode header _ Hh).
  unfold decode_data. rewrite (b64decode_insert_foreign c d1 d2 Hc).
  split; reflexivity.
Qed.

Lemma foreign_character_is_skipped_witness :
  decode_image marker_codec
    ("data:image/jpeg;base64" ++ String comma ("/9j/" ++ String "010" "2wBD"))
  = decode_image marker_codec
      ("data:image/jpeg;base64" ++ String comma ("/9j/" ++ "2wBD"))
  /\ emissions (handle_identify_face marker_codec sid1
                  ("data:image/jpeg;base64"
                   ++ String comma ("/9j/" ++ String "010" "2wBD")))
     = emissions (handle_identify_face marker_codec sid1
                    ("data:image/jpeg;base64"
                     ++ String comma ("/9j/" ++ "2wBD"))).
Proof.
  apply (foreign_character_is_skipped marker_codec sid1
           "data:image/jpeg;base64" "/9j/" "2wBD" "010"%char); reflexivity.
Defined.

Lemma count_alphabet_app (a b : string) :
  count_alphabet (a ++ b) = count_alphabet a + count_alphabet b.
Proof.
  induction a as [|c a IH]; simpl; [reflexivity|].
  destruct (b64_value c); simpl; now rewrite IH.
Qed.

(** A text without alphabet characters leaves the loop where it started. *)
Lemma a2b_base64_loop_no_alphabet (s : string) (l p : N) :
  count_alphabet s = 0 ->
  a2b_base64_loop s 0 l p = Ok [].
Proof.
  induction s as [|c s IH]; simpl; [reflexivity|].
  destruct (b64_value c) as [v|]; [discriminate|].
  intros H. destruct (Ascii.eqb c BASE64_PAD); now apply IH.
Qed.

(** X4: a payload of ASCII characters none of which is in the base64
    alphabet (punctuation, blanks, pad characters, commas) is not a bad
    encoding for the handler: it decodes to the empty buffer and is handled
    exactly as the empty payload is. *)
Theorem no_alphabet_is_empty_payload
    (imdecode : bytes -> Z -> result (option bitmap))
    (s : sid) (raw : string) :
  is_ascii_str raw = true ->
  count_alphabet raw = 0 ->
  decode_image imdecode raw = imdecode [] IMREAD_COLOR
  /\ decode_image imdecode raw = decode_image imdecode ""
  /\ emissions (handle_identify_face imdecode s raw)
     = emissions (handle_identify_face imdecode s "").
Proof.
  intros Ha Hn.
  assert (H : decode_image imdecode raw = imdecode [] IMREAD_COLOR).
  { assert (Hd : forall d, is_ascii_str d = true -> count_alphabet d = 0 ->
                           decode_data imdecode d = imdecode [] IMREAD_COLOR).
    { intros d Hda Hdn. unfold decode_data, b64decode, a2b_base64.
      now rewrite Hda, (a2b_base64_loop_no_alphabet d 0 0 Hdn). }
    unfold decode_image.
    destruct (contains_comma raw) eqn:Hc.
    - destruct (select_base64_data_comma raw Hc) as (h & r & E & _ & Hs).
      rewrite Hs. subst raw.
      rewrite is_ascii_str_app in Ha. apply andb_prop in Ha.
      destruct Ha as [_ Ha]. simpl in Ha.
      rewrite count_alphabet_app in Hn. simpl in Hn.
      apply Hd; [exact Ha | lia].
    - rewrite (select_base64_data_plain raw Hc). now apply Hd. }
  rewrite !emissions_handle, H. repeat split.
Qed.

Lemma no_alphabet_is_empty_payload_witness :
  decode_image marker_codec "!?, ==" = marker_codec [] IMREAD_COLOR
  /\ decode_image marker_codec "!?, ==" = decode_image marker_codec ""
  /\ emissions (handle_identify_face marker_codec sid1 "!?, ==")
     = emissions (handle_identify_face marker_codec sid1 "").
Proof.
  apply (no_alphabet_is_empty_payload marker_codec sid1 "!?, ==");
    reflexivity.
Defined.

(** ** Length and padding *)

(** The carry of the quad position into the byte count: starting inside a
    quad at position [q], the characters that complete it yield [4 - q]
    quarter-quads more than their number alone accounts for. *)
Lemma a2b_base64_loop_pad_free (s : string) :
  has_pad s = false ->
  forall (q : nat) (l p : N),
    q < 4 ->
    match a2b_base64_loop s (N.of_nat q) l p with
    | Ok out =>
        (q + count_alphabet s) mod 4 = 0
        /\ 4 * List.length out + (if Nat.eqb q 0 then 0 else q)
           = 3 * count_alphabet s + (if Nat.eqb q 0 then 0 else 4)
    | Err e =>
        e = BinasciiError /\ (q + count_alphabet s) mod 4 <> 0
    end.
Proof.
  induction s as [|c s IH]; intros Hp q l p Hq.
  - simpl. rewrite Nat.add_0_r.
    destruct q as [|[|[|[|q]]]]; simpl; try lia; repeat split;
      discriminate.
  - simpl in Hp. apply orb_false_iff in Hp. destruct Hp as [Hc Hp].
    cbn [a2b_base64_loop count_alphabet]. rewrite Hc.
    destruct (b64_value c) as [v|]; [|now apply IH].
    cbv zeta.
    destruct q as [|[|[|[|q]]]]; try lia.
    + change (N.of_nat 0 =? 0)%N with true. cbv iota.
      specialize (IH Hp 1 v 0%N ltac:(lia)).
      change (N.of_nat 1) with 1%N in IH.
      destruct (a2b_base64_loop s 1 v 0) as [out|e].
      * destruct IH as [Hm Hl]. simpl in Hl.
        split; [|simpl; lia].
        replace (0 + S (count_alphabet s)) with (1 + count_alphabet s)
          by lia. exact Hm.
      * destruct IH as [He Hm]. split; [exact He|].
        replace (0 + S (count_alphabet s)) with (1 + count_alphabet s)
          by lia. exact Hm.
    + change (N.of_nat 1 =? 0)%N with false.
      change (N.of_nat 1 =? 1)%N with true. cbv iota.
      specialize (IH Hp 2 (N.land v 15) 0%N ltac:(lia)).
      change (N.of_nat 2) with 2%N in IH.
      destruct (a2b_base64_loop s 2 (N.land v 15) 0) as [out|e].
      * destruct IH as [Hm Hl]. simpl in Hl.
        split; [|simpl; lia].
        replace (1 + S (count_alphabet s)) with (2 + count_alphabet s)
          by lia. exact Hm.
      * destruct IH as [He Hm]. split; [exact He|].
        replace (1 + S (count_alphabet s)) with (2 + count_alphabet s)
          by lia. exact Hm.
    + change (N.of_nat 2 =? 0)%N with false.
      change (N.of_nat 2 =? 1)%N with false.
      change (N.of_nat 2 =? 2)%N with true. cbv iota.
      specialize (IH Hp 3 (N.land v 3) 0%N ltac:(lia)).
      change (N.of_nat 3) with 3%N in IH.
      destruct (a2b_base64_loop s 3 (N.land v 3) 0) as [out|e].
      * destruct IH as [Hm Hl]. simpl in Hl.
        split; [|simpl; lia].
        replace (2 + S (count_alphabet s)) with (3 + count_alphabet s)
          by lia. exact Hm.
      * destruct IH as [He Hm]. split; [exact He|].
        replace (2 + S (count_alphabet s)) with (3 + count_alphabet s)
          by lia. exact Hm.
    + change (N.of_nat 3 =? 0)%N with false.
      change (N.of_nat 3 =? 1)%N with false.
      change (N.of_nat 3 =? 2)%N with false. cbv iota.
      specialize (IH Hp 0 0%N 0%N ltac:(lia)).
      change (N.of_nat 0) with 0%N in IH.
      assert (Hmod : (3 + S (count_alphabet s)) mod 4
                     = (0 + count_alphabet s) mod 4).
      { replace (3 + S (count_alphabet s))
          with (count_alphabet s + 1 * 4) by lia.
        now rewrite Nat.Div0.mod_add. }
      destruct (a2b_base64_loop s 0 0 0) as [out|e].
      * destruct IH as [Hm Hl]. simpl in Hl.
        split; [now rewrite Hmod | simpl; lia].
      * destruct IH as [He Hm]. split; [exact He | now rewrite Hmod].
Qed.

(** X5: for ASCII data without a pad character, decoding fails exactly
    when the number of alphabet characters is not a multiple of four, and
    then the handler answers auth-fail; when it succeeds, four alphabet
    characters give three bytes.  Other characters do not count. *)
Theorem pad_free_length_rule
    (imdecode : bytes -> Z -> result (option bitmap))
    (s : sid) (header d : string) :
  contains_comma header = false ->
  is_ascii_str d = true ->
  has_pad d = false ->
  (b64decode d = Err BinasciiError <-> count_alphabet d mod 4 <> 0)
  /\ (forall out : bytes,
         b64decode d = Ok out ->
         4 * List.length out = 3 * count_alphabet d)
  /\ (count_alphabet d mod 4 <> 0 ->
      emissions (handle_identify_face imdecode s
                   (header ++ String comma d)) = [auth_fail s]).
Proof.
  intros Hh Ha Hp.
  pose proof (a2b_base64_loop_pad_free d Hp 0 0%N 0%N ltac:(lia)) as H.
  change (N.of_nat 0) with 0%N in H. simpl in H.
  assert (Hb : b64decode d = a2b_base64_loop d 0 0 0).
  { unfold b64decode, a2b_base64. now rewrite Ha. }
  rewrite emissions_handle, (decode_image_header imdecode header d Hh).
  unfold decode_data. rewrite Hb.
  destruct (a2b_base64_loop d 0 0 0) as [out|e].
  - destruct H as [Hm Hl]. repeat split.
    + discriminate.
    + intros Hn. contradiction.
    + intros out' E. injection E as <-. lia.
    + intros Hn. contradiction.
  - destruct H as [-> Hm]. repeat split.
    + intros _. exact Hm.
    + discriminate.
Qed.

Lemma pad_free_length_rule_witness :
  (b64decode "not-valid-base64!!" = Err BinasciiError
   <-> count_alphabet "not-valid-base64!!" mod 4 <> 0)
  /\ (forall out : bytes,
         b64decode "not-valid-base64!!" = Ok out ->
         4 * List.length out = 3 * count_alphabet "not-valid-base64!!")
  /\ (count_alphabet "not-valid-base64!!" mod 4 <> 0 ->
      emissions (handle_identify_face marker_codec sid1
                   ("data:image/jpeg;base64"
                    ++ String comma "not-valid-base64!!"))
      = [auth_fail sid1]).
Proof.
  apply (pad_free_length_rule marker_codec sid1 "data:image/jpeg;base64"
           "not-valid-base64!!"); reflexivity.
Defined.

Lemma string_length_app (a b : string) :
  String.length (a ++ b) = String.length a + String.length b.
Proof. induction a as [|c a IH]; simpl; [reflexivity | now rewrite IH]. Qed.

(** Whatever the text, pads and foreign characters included, the bytes
    decoded from a position [q] of a quad stay within three quarters of
    the characters read. *)
Lemma a2b_base64_loop_length (s : string) :
  forall (q : nat) (l p : N) (out : bytes),
    q < 4 ->
    a2b_base64_loop s (N.of_nat q) l p = Ok out ->
    4 * List.length out + (if Nat.eqb q 0 then 0 else q)
    <= 3 * String.length s + (if Nat.eqb q 0 then 0 else 4).
Proof.
  induction s as [|c s IH]; intros q l p out Hq.
  - simpl. destruct q as [|[|[|[|q]]]]; simpl; try lia;
      intros E; try discriminate E. injection E as <-. simpl. lia.
  - cbn [a2b_base64_loop String.length].
    assert (Hskip : forall p',
               a2b_base64_loop s (N.of_nat q) l p' = Ok out ->
               4 * List.length out + (if Nat.eqb q 0 then 0 else q)
               <= 3 * S (String.length s) + (if Nat.eqb q 0 then 0 else 4)).
    { intros p' E. specialize (IH q l p' out Hq E). lia. }
    destruct (Ascii.eqb c BASE64_PAD).
    + destruct (2 <=? N.of_nat q)%N; [|apply Hskip].
      destruct (4 <=? N.of_nat q + (p + 1))%N; [|apply Hskip].
      intros E. injection E as <-.
      destruct q as [|[|[|[|q]]]]; simpl; lia.
    + destruct (b64_value c) as [v|]; [|apply Hskip].
      cbv zeta. clear Hskip.
      destruct q as [|[|[|[|q]]]]; try lia.
      * change (N.of_nat 0 =? 0)%N with true. cbv iota.
        intros E. specialize (IH 1 v 0%N out ltac:(lia) E).
        simpl in IH. simpl. lia.
      * change (N.of_nat 1 =? 0)%N with false.
        change (N.of_nat 1 =? 1)%N with true. cbv iota.
        destruct (a2b_base64_loop s 2 (N.land v 15) 0) as [o|e] eqn:E;
          intros E'; [|discriminate E'].
        injection E' as <-.
        specialize (IH 2 (N.land v 15) 0%N o ltac:(lia) E).
        simpl in IH. simpl. lia.
      * change (N.of_nat 2 =? 0)%N with false.
        change (N.of_nat 2 =? 1)%N with false.
        change (N.of_nat 2 =? 2)%N with true. cbv iota.
        destruct (a2b_base64_loop s 3 (N.land v 3) 0) as [o|e] eqn:E;
          intros E'; [|discriminate E'].
        injection E' as <-.
        specialize (IH 3 (N.land v 3) 0%N o ltac:(lia) E).
        simpl in IH. simpl. lia.
      * change (N.of_nat 3 =? 0)%N with false.
        change (N.of_nat 3 =? 1)%N with false.
        change (N.of_nat 3 =? 2)%N with false. cbv iota.
        destruct (a2b_base64_loop s 0 0 0) as [o|e] eqn:E;
          intros E'; [|discriminate E'].
        injection E' as <-.
        specialize (IH 0 0%N 0%N o ltac:(lia) E).
        simpl in IH. simpl. lia.
Qed.

(** X6: the buffer that reaches the image decoder is never longer than
    three quarters of the inbound text, header included: four characters
    of payload give at most three bytes. *)
Theorem decoded_buffer_within_three_quarters
    (raw d : string) (img_data : bytes) :
  select_base64_data raw = Ok d ->
  b64decode d = Ok img_data ->
  String.length d <= String.length raw
  /\ 4 * List.length (frombuffer_uint8 img_data) <= 3 * String.length d
  /\ 4 * List.length (frombuffer_uint8 img_data) <= 3 * String.length raw.
Proof.
  intros Hs Hb.
  assert (Hd : String.length d <= String.length raw).
  { destruct (contains_comma raw) eqn:Hc.
    - destruct (select_base64_data_comma raw Hc) as (h & r & E & _ & Hr).
      rewrite Hs in Hr. injection Hr as ->. subst raw.
      rewrite string_length_app. simpl. lia.
    - rewrite (select_base64_data_plain raw Hc) in Hs.
      injection Hs as ->. lia. }
  assert (Hl : 4 * List.length img_data <= 3 * String.length d).
  { unfold b64decode, a2b_base64 in Hb.
    destruct (is_ascii_str d); [|discriminate Hb].
    pose proof (a2b_base64_loop_length d 0 0%N 0%N img_data
                  ltac:(lia) Hb) as H.
    simpl in H. lia. }
  unfold frombuffer_uint8. repeat split; lia.
Qed.

Lemma decoded_buffer_within_three_quarters_witness :
  String.length "/9j/4AAQSkZJRgABAQAAAQABAAA=" <= String.length jpeg_payload
  /\ 4 * List.length
           (frombuffer_uint8
              ["255"%byte; "216"%byte; "255"%byte; "224"%byte; "000"%byte;
               "016"%byte; "J"%byte; "F"%byte; "I"%byte; "F"%byte;
               "000"%byte; "001"%byte; "001"%byte; "000"%byte; "000"%byte;
               "001"%byte; "000"%byte; "001"%byte; "000"%byte; "000"%byte])
     <= 3 * String.length "/9j/4AAQSkZJRgABAQAAAQABAAA="
  /\ 4 * List.length
           (frombuffer_uint8
              ["255"%byte; "216"%byte; "255"%byte; "224"%byte; "000"%byte;
               "016"%byte; "J"%byte; "F"%byte; "I"%byte; "F"%byte;
               "000"%byte; "001"%byte; "001"%byte; "000"%byte; "000"%byte;
               "001"%byte; "000"%byte; "001"%byte; "000"%byte; "000"%byte])
     <= 3 * String.length jpeg_payload.
Proof.
  apply (decoded_buffer_within_three_quarters jpeg_payload
           "/9j/4AAQSkZJRgABAQAAAQABAAA="); reflexivity.
Defined.

(** Once the pads that complete the open quad have been read, the loop
    stops: what follows them is never read. *)
Lemma a2b_base64_loop_stops_at_padding (tail : string) (s : string) :
  has_pad s = false ->
  forall (q : nat) (l p : N),
    q < 4 ->
    ((q + count_alphabet s) mod 4 = 3 ->
     a2b_base64_loop (s ++ String BASE64_PAD tail) (N.of_nat q) l p
     = a2b_base64_loop (s ++ String BASE64_PAD "") (N.of_nat q) l p)
    /\ ((q + count_alphabet s) mod 4 = 2 ->
        a2b_base64_loop (s ++ String BASE64_PAD (String BASE64_PAD tail))
                        (N.of_nat q) l p
        = a2b_base64_loop (s ++ String BASE64_PAD (String BASE64_PAD ""))
                          (N.of_nat q) l p).
Proof.
  induction s as [|c s IH]; intros Hp q l p Hq.
  - cbn [append count_alphabet]. rewrite Nat.add_0_r, Nat.mod_small by lia.
    split; intros ->.
    + cbn [a2b_base64_loop].
      change (Ascii.eqb BASE64_PAD BASE64_PAD) with true. cbv iota.
      change (2 <=? N.of_nat 3)%N with true. cbv iota.
      assert (E : (4 <=? N.of_nat 3 + (p + 1))%N = true)
        by (apply N.leb_le; lia).
      now rewrite E.
    + cbn [a2b_base64_loop].
      change (Ascii.eqb BASE64_PAD BASE64_PAD) with true. cbv iota.
      change (2 <=? N.of_nat 2)%N with true. cbv iota.
      assert (E : (4 <=? N.of_nat 2 + (p + 1 + 1))%N = true)
        by (apply N.leb_le; lia).
      rewrite E. now destruct (4 <=? N.of_nat 2 + (p + 1))%N.
  - simpl in Hp. apply orb_false_iff in Hp. destruct Hp as [Hc Hp].
    cbn [append a2b_base64_loop count_alphabet]. rewrite Hc.
    destruct (b64_value c) as [v|]; [|now apply IH].
    cbv zeta.
    assert (Hmod : (3 + S (count_alphabet s)) mod 4
                   = (0 + count_alphabet s) mod 4).
    { replace (3 + S (count_alphabet s))
        with (count_alphabet s + 1 * 4) by lia.
      now rewrite Nat.Div0.mod_add. }
    destruct q as [|[|[|[|q]]]]; try lia.
    + change (N.of_nat 0 =? 0)%N with true. cbv iota.
      replace (0 + S (count_alphabet s)) with (1 + count_alphabet s) by lia.
      exact (IH Hp 1 v 0%N ltac:(lia)).
    + change (N.of_nat 1 =? 0)%N with false.
      change (N.of_nat 1 =? 1)%N with true. cbv iota.
      replace (1 + S (count_alphabet s)) with (2 + count_alphabet s) by lia.
      destruct (IH Hp 2 (N.land v 15) 0%N ltac:(lia)) as [H3 H2].
      change (N.of_nat 2) with 2%N in H3, H2.
      split; intros Hm; [now rewrite (H3 Hm) | now rewrite (H2 Hm)].
    + change (N.of_nat 2 =? 0)%N with false.
      change (N.of_nat 2 =? 1)%N with false.
      change (N.of_nat 2 =? 2)%N with true. cbv iota.
      replace (2 + S (count_alphabet s)) with (3 + count_alphabet s) by lia.
      destruct (IH Hp 3 (N.land v 3) 0%N ltac:(lia)) as [H3 H2].
      change (N.of_nat 3) with 3%N in H3, H2.
      split; intros Hm; [now rewrite (H3 Hm) | now rewrite (H2 Hm)].
    + change (N.of_nat 3 =? 0)%N with false.
      change (N.of_nat 3 =? 1)%N with false.
      change (N.of_nat 3 =? 2)%N with false. cbv iota.
      rewrite Hmod.
      destruct (IH Hp 0 0%N 0%N ltac:(lia)) as [H3 H2].
      change (N.of_nat 0) with 0%N in H3, H2.
      split; intros Hm; [now rewrite (H3 Hm) | now rewrite (H2 Hm)].
Qed.

(** X7: whatever follows a completed padding is ignored.  When the data
    up to the pad has one character short of a quad, the text after one
    pad character changes nothing in what the payload decodes to; when it
    is two short, the same holds after two pad characters.  (The text
    after must be ASCII, as the whole argument of [b64decode] must.) *)
Theorem text_after_padding_is_ignored
    (imdecode : bytes -> Z -> result (option bitmap))
    (d tail : string) :
  has_pad d = false ->
  is_ascii_str tail = true ->
  (count_alphabet d mod 4 = 3 ->
   decode_data imdecode (d ++ String BASE64_PAD tail)
   = decode_data imdecode (d ++ String BASE64_PAD ""))
  /\ (count_alphabet d mod 4 = 2 ->
      decode_data imdecode (d ++ String BASE64_PAD (String BASE64_PAD tail))
      = decode_data imdecode
          (d ++ String BASE64_PAD (String BASE64_PAD ""))).
Proof.
  intros Hp Ht.
  destruct (a2b_base64_loop_stops_at_padding tail d Hp 0 0%N 0%N
              ltac:(lia)) as [H3 H2].
  change (N.of_nat 0) with 0%N in H3, H2. simpl in H3, H2.
  unfold decode_data, b64decode, a2b_base64.
  rewrite !is_ascii_str_app. simpl. rewrite Ht, !andb_true_r.
  split; intros Hm; [now rewrite (H3 Hm) | now rewrite (H2 Hm)].
Qed.

Lemma text_after_padding_is_ignored_witness :
  (decode_data marker_codec ("/9j/2wB" ++ String BASE64_PAD "QUJD")
   = decode_data marker_codec ("/9j/2wB" ++ String BASE64_PAD ""))
  /\ (decode_data marker_codec
        ("/9j/2w" ++ String BASE64_PAD (String BASE64_PAD "QUJD"))
      = decode_data marker_codec
          ("/9j/2w" ++ String BASE64_PAD (String BASE64_PAD ""))).
Proof.
  split.
  - apply (proj1 (text_after_padding_is_ignored marker_codec "/9j/2wB"
                    "QUJD" eq_refl eq_refl)).
    reflexivity.
  - apply (proj2 (text_after_padding_is_ignored marker_codec "/9j/2w"
                    "QUJD" eq_refl eq_refl)).
    reflexivity.
Defined.

(** * Further properties of the handler and the event loop *)

(** X8: the handler awaits [asyncio.sleep] exactly when the payload
    decodes to an image: once, for half a second, and before its one emit,
    the auth-success.  When decoding raises, its only await is the emit of
    auth-fail, with no sleep before it; when the decoder returns no image
    it awaits nothing.  This is the order of the awaits, whichever of them
    hand control to the event loop. *)
Theorem sleep_only_before_success
    (imdecode : bytes -> Z -> result (option bitmap))
    (s : sid) (raw : string) :
  ((exists img : bitmap, decode_image imdecode raw = Ok (Some img))
   /\ awaits (handle_identify_face imdecode s raw)
      = [AwaitSleep 0.5%Q; AwaitEmit (auth_success s)])
  \/ (decode_image imdecode raw = Ok None
      /\ awaits (handle_identify_face imdecode s raw) = [])
  \/ ((exists e : exn, decode_image imdecode raw = Err e)
      /\ awaits (handle_identify_face imdecode s raw)
         = [AwaitEmit (auth_fail s)]).
Proof.
  rewrite handle_identify_face_shape.
  destruct (decode_image imdecode raw) as [[img|]|e]; simpl.
  - left. split; [now exists img | reflexivity].
  - right; left. split; reflexivity.
  - right; right. split; [now exists e | reflexivity].
Qed.

(** ** Counting what is sent *)

Lemma filter_length_snoc {A : Type} (f : A -> bool) (l : list A) (a : A) :
  List.length (filter f (l ++ [a]))
  = List.length (filter f l) + (if f a then 1 else 0).
Proof.
  rewrite filter_app, length_app. simpl.
  destruct (f a); reflexivity.
Qed.

Lemma filter_length_remove_nth {A : Type} (f : A -> bool) (n : nat)
      (l : list A) (a : A) :
  nth_error l n = Some a ->
  List.length (filter f l)
  = List.length (filter f (remove_nth n l)) + (if f a then 1 else 0).
Proof.
  revert n. induction l as [|b l IH]; intros [|n] H; simpl in H;
    try discriminate.
  - injection H as ->. simpl. destruct (f a); simpl; lia.
  - simpl. specialize (IH n H). destruct (f b); simpl; lia.
Qed.

Section Accounting.

Variable imdecode : bytes -> Z -> result (option bitmap).
Variable s : sid.

(** The three counters of session [s], before and after one input. *)
Lemma step_accounting (srv : server) (i : input) :
  well_formed srv ->
  count_sent "auth-success" s (step imdecode srv i)
  + outstanding (step imdecode srv i) s
  = count_sent "auth-success" s srv + outstanding srv s
    + (if asks_with_image imdecode s i then 1 else 0)
  /\ count_sent "auth-fail" s (step imdecode srv i)
     = count_sent "auth-fail" s srv
       + (if asks_with_error imdecode s i then 1 else 0)
  /\ List.length (sent_to s (step imdecode srv i))
     + count_sent "auth-success" s srv + count_sent "auth-fail" s srv
     = List.length (sent_to s srv)
       + count_sent "auth-success" s (step imdecode srv i)
       + count_sent "auth-fail" s (step imdecode srv i).
Proof.
  intros [Ht _].
  destruct i as [s'|s'|s' raw|n].
  - unfold count_sent, outstanding, sent_to. simpl.
    rewrite !app_nil_r. count_lia.
  - unfold count_sent, outstanding, sent_to. simpl.
    rewrite !app_nil_r. count_lia.
  - cbn [step asks_with_image asks_with_error].
    rewrite handle_identify_face_shape.
    unfold count_sent, outstanding, sent_to, run_task.
    destruct (decode_image imdecode raw) as [[img|]|e];
      cbn [outcome_of run_segment seg_status seg_emitted seg_printed
           tasks outbox after_sleep].
    + rewrite !app_nil_r, filter_length_snoc. cbn [fst].
      rewrite andb_true_r. count_lia.
    + rewrite !app_nil_r, andb_false_r. count_lia.
    + rewrite !filter_length_snoc. cbn [auth_fail event to].
      rewrite andb_false_r. simpl. count_lia.
  - cbn [step asks_with_image asks_with_error].
    destruct (nth_error (tasks srv) n) as [[s' k]|] eqn:Hn;
      [|count_lia].
    pose proof (Forall_nth_error _ _ _ _ Ht Hn) as Hk. simpl in Hk.
    subst k.
    unfold count_sent, outstanding, sent_to, run_task.
    cbn [after_sleep run_segment seg_status seg_emitted seg_printed
         tasks outbox].
    rewrite !filter_length_snoc. cbn [auth_success event to].
    rewrite (filter_length_remove_nth
               (fun t => String.eqb (fst t) s) n (tasks srv)
               (s', Emit (auth_success s') (Log (LogSent s' (name the_user))
                                               (Ret tt))) Hn).
    cbn [fst]. simpl. count_lia.
Qed.

Lemma run_accounting (inputs : list input) :
  forall srv : server,
    well_formed srv ->
    count_sent "auth-success" s (run imdecode srv inputs)
    + outstanding (run imdecode srv inputs) s
    = count_sent "auth-success" s srv + outstanding srv s
      + List.length (filter (asks_with_image imdecode s) inputs)
    /\ count_sent "auth-fail" s (run imdecode srv inputs)
       = count_sent "auth-fail" s srv
         + List.length (filter (asks_with_error imdecode s) inputs)
    /\ List.length (sent_to s (run imdecode srv inputs))
       + count_sent "auth-success" s srv + count_sent "auth-fail" s srv
       = List.length (sent_to s srv)
         + count_sent "auth-success" s (run imdecode srv inputs)
         + count_sent "auth-fail" s (run imdecode srv inputs).
Proof.
  induction inputs as [|i inputs IH]; intros srv Hw.
  - simpl. repeat split; lia.
  - cbn [run fold_left filter].
    destruct (step_accounting srv i Hw) as (A1 & A2 & A3).
    destruct (IH (step imdecode srv i)
                 (step_well_formed imdecode srv i Hw)) as (B1 & B2 & B3).
    unfold run in B1, B2, B3.
    destruct (asks_with_image imdecode s i),
             (asks_with_error imdecode s i); simpl; lia.
Qed.

End Accounting.

(** X9: every event is accounted for.  After any sequence of inputs, and
    for every session: the auth-success events sent to it plus its calls
    still asleep are as many as its identify-face events whose payload
    decoded to an image; the auth-fail events sent to it are as many as
    its identify-face events on which decoding raised; and nothing else
    was ever sent to it. *)
Theorem every_event_is_accounted_for
    (imdecode : bytes -> Z -> result (option bitmap))
    (inputs : list input) (s : sid) :
  let srv := run imdecode init inputs in
  count_sent "auth-success" s srv + outstanding srv s
  = List.length (filter (asks_with_image imdecode s) inputs)
  /\ count_sent "auth-fail" s srv
     = List.length (filter (asks_with_error imdecode s) inputs)
  /\ List.length (sent_to s srv)
     = count_sent "auth-success" s srv + count_sent "auth-fail" s srv.
Proof.
  intros srv. subst srv.
  destruct (run_accounting imdecode s inputs init init_well_formed)
    as (H1 & H2 & H3).
  change (count_sent "auth-success" s init) with 0 in *.
  change (count_sent "auth-fail" s init) with 0 in *.
  change (outstanding init s) with 0 in *.
  change (List.length (sent_to s init)) with 0 in *.
  repeat split; lia.
Qed.

(** ** Sessions do not interfere *)

(** X10: an identify-face event of one session, whatever its payload,
    and its connect or disconnect, leave every other session's sent events
    and outstanding calls as they were, from any state of the server. *)
Theorem other_sessions_untouched
    (imdecode : bytes -> Z -> result (option bitmap))
    (srv : server) (s s' : sid) (raw : string) :
  s' <> s ->
  sent_to s (step imdecode srv (IdentifyFace s' raw)) = sent_to s srv
  /\ outstanding (step imdecode srv (IdentifyFace s' raw)) s
     = outstanding srv s
  /\ sent_to s (step imdecode srv (Connected s')) = sent_to s srv
  /\ outstanding (step imdecode srv (Connected s')) s = outstanding srv s
  /\ sent_to s (step imdecode srv (Disconnected s')) = sent_to s srv
  /\ outstanding (step imdecode srv (Disconnected s')) s = outstanding srv s.
Proof.
  intros Hne. apply String.eqb_neq in Hne.
  split; [|split].
  - cbn [step]. rewrite handle_identify_face_shape.
    unfold sent_to, run_task.
    destruct (decode_image imdecode raw) as [[img|]|e]; simpl;
      rewrite filter_app; simpl; rewrite ?Hne; now rewrite app_nil_r.
  - cbn [step]. rewrite handle_identify_face_shape.
    unfold outstanding, run_task.
    destruct (decode_image imdecode raw) as [[img|]|e]; simpl;
      try reflexivity.
    rewrite filter_app. simpl. rewrite Hne. now rewrite app_nil_r.
  - unfold sent_to, outstanding. simpl. rewrite !app_nil_r.
    repeat split.
Qed.

Lemma other_sessions_untouched_witness :
  let srv := run marker_codec init [IdentifyFace sid1 jpeg_payload] in
  sent_to sid1 (step marker_codec srv (IdentifyFace "b7Qe" bad_payload))
  = sent_to sid1 srv
  /\ outstanding (step marker_codec srv (IdentifyFace "b7Qe" bad_payload))
                 sid1
     = outstanding srv sid1
  /\ sent_to sid1 (step marker_codec srv (Connected "b7Qe"))
     = sent_to sid1 srv
  /\ outstanding (step marker_codec srv (Connected "b7Qe")) sid1
     = outstanding srv sid1
  /\ sent_to sid1 (step marker_codec srv (Disconnected "b7Qe"))
     = sent_to sid1 srv
  /\ outstanding (step marker_codec srv (Disconnected "b7Qe")) sid1
     = outstanding srv sid1.
Proof.
  apply (other_sessions_untouched marker_codec
           (run marker_codec init [IdentifyFace sid1 jpeg_payload])
           sid1 "b7Qe" bad_payload).
  discriminate.
Defined.

(** ** Every call completes *)

Lemma run_drains (imdecode : bytes -> Z -> result (option bitmap))
      (l : list (sid * coro unit)) :
  Forall (fun t => snd t = after_sleep (fst t)) l ->
  forall (out : list emission) (con : list log_line) (fl : list exn),
    let srv' :=
      run imdecode (mk_server l out con fl)
          (repeat (TimerFired 0) (List.length l)) in
    tasks srv' = []
    /\ outbox srv' = out ++ map (fun t => auth_success (fst t)) l
    /\ faults srv' = fl.
Proof.
  induction 1 as [|[s k] l Hk Hl IH]; intros out con fl.
  - simpl. rewrite app_nil_r. repeat split.
  - simpl in Hk. subst k.
    cbn [List.length repeat run fold_left].
    change (step imdecode (mk_server ((s, after_sleep s) :: l) out con fl)
                 (TimerFired 0))
      with (mk_server l (out ++ [auth_success s])
                      (con ++ [LogSent s (name the_user)]) fl).
    specialize (IH (out ++ [auth_success s])
                   (con ++ [LogSent s (name the_user)]) fl).
    unfold run in IH. cbv zeta in IH.
    destruct IH as (I1 & I2 & I3).
    cbv zeta. repeat split; try assumption.
    rewrite I2, <- app_assoc. reflexivity.
Qed.

(** X11: every outstanding call completes.  From any server the event
    loop can reach, letting the timers of the sleeping handlers fire in
    the order the handlers were started leaves no handler asleep, adds
    exactly one auth-success per handler, addressed to that handler's own
    session and in the same order, and raises no fault. *)
Theorem every_outstanding_call_completes
    (imdecode : bytes -> Z -> result (option bitmap))
    (inputs : list input) :
  let srv := run imdecode init inputs in
  let srv' :=
    run imdecode srv (repeat (TimerFired 0) (List.length (tasks srv))) in
  tasks srv' = []
  /\ outbox srv'
     = outbox srv ++ map (fun t => auth_success (fst t)) (tasks srv)
  /\ faults srv' = [].
Proof.
  intros srv srv'.
  destruct (run_well_formed imdecode inputs init init_well_formed)
    as [Ht Hf].
  fold srv in Ht, Hf.
  pose proof (run_drains imdecode (tasks srv) Ht (outbox srv) (console srv)
                (faults srv)) as H.
  cbv zeta in H.
  replace (mk_server (tasks srv) (outbox srv) (console srv) (faults srv))
    with srv in H by (destruct srv; reflexivity).
  fold srv' in H. rewrite Hf in H. exact H.
Qed.
